(** * Icon render driver: [assets/icons/render_image.py]

    The script reads the icon size [XY] and the application id [APP_ID]
    from the process environment, walks the host's scene collection and,
    for each scene, stores the square resolution, the output path and the
    last frame, then asks the host to render.

    The embedding follows the script statement by statement.  Python
    exceptions and in-place mutation of host objects are modelled by a
    state-and-exception monad over the host [World]: a raised exception
    keeps the world as it was at the point of failure.

    Strings are byte strings, as the environment holds them. *)

From Stdlib Require Import ZArith String Ascii.
From stdpp Require Import base option list gmap strings.

Local Open Scope Z_scope.
Local Open Scope string_scope.

(** ** Python values the script relies on *)

Module Py.

(** Exceptions the script can let escape. *)
Inductive exn :=
| KeyError (key : string)   (* os.environ[key] with key missing *)
| ValueError                (* int(s) on a non-numeric s, a refused store *)
| TypeError                 (* argument count mismatch of % *)
| RuntimeError.             (* the render operator reports a failure *)

Inductive result (A : Type) :=
| Ok (a : A)
| Raise (e : exn).
Arguments Ok {A} a.
Arguments Raise {A} e.

(** *** [fmt % args] for string arguments

    [%s] takes the next argument as it is, [%%] is a percent sign; the
    script's template has no other directive, so any other one is
    rejected here.  Too few arguments and left-over arguments are
    [TypeError]s, as in Python. *)
Fixpoint format (fmt : string) (args : list string) : result string :=
  match fmt with
  | EmptyString =>
      match args with
      | [] => Ok EmptyString
      | _ :: _ => Raise TypeError
      end
  | String "%" EmptyString => Raise ValueError
  | String "%" (String "s" rest) =>
      match args with
      | [] => Raise TypeError
      | a :: args' =>
          match format rest args' with
          | Ok out => Ok (a ++ out)
          | Raise e => Raise e
          end
      end
  | String "%" (String "%" rest) =>
      match format rest args with
      | Ok out => Ok (String "%" out)
      | Raise e => Raise e
      end
  | String "%" (String _ _) => Raise ValueError
  | String c rest =>
      match format rest args with
      | Ok out => Ok (String c out)
      | Raise e => Raise e
      end
  end.

End Py.
Export Py.

(** ** What the host does with a stored value

    The scene properties belong to the host, not to the repository.
    A store into them is not a plain assignment: an integer property
    takes a C [int] and keeps it within the bounds of the property, the
    output path is kept in a buffer of 1024 bytes, and storing the last
    frame drags the first frame along. *)

(** A Python integer fits a C [int]. *)
Definition in_int_range (v : Z) : bool :=
  Z.leb (-2147483648) v && Z.leb v 2147483647.

Definition clamp (lo hi v : Z) : Z := Z.max lo (Z.min hi v).

(** [resolution_x] and [resolution_y] lie in 4..65536. *)
Definition resolution_min : Z := 4.
Definition resolution_max : Z := 65536.

(** [frame_start] and [frame_end] lie in 0..1048574. *)
Definition frame_min : Z := 0.
Definition frame_max : Z := 1048574.

(** The bytes of a path that are kept. *)
Definition filepath_bytes : nat := 1023.

Fixpoint string_take (n : nat) (s : string) : string :=
  match n, s with
  | S n', String c r => String c (string_take n' r)
  | _, _ => EmptyString
  end.

(** ** The host: scenes, the render operator, the process environment *)

(** [os.environ]: a finite map from names to values. *)
Abbreviation environ := (gmap string string).

Section Driver.

(** The scene fields that no store of the script reaches are kept as two
    opaque blocks: the remaining render settings and the remaining scene
    data. *)
Context {RenderRest SceneRest : Type}.

(** What the render operator writes to (the files on disk) is host
    business. *)
Context {Disk : Type}.

(** [scene.render] *)
Record RenderSettings := {
  resolution_x : Z;
  resolution_y : Z;
  filepath : string;
  render_rest : RenderRest;
}.

(** [frame_start] is not named by the script; the store into
    [frame_end] reaches it. *)
Record Scene := {
  render : RenderSettings;
  frame_start : Z;
  frame_end : Z;
  scene_rest : SceneRest;
}.

(** One call of [bpy.ops.render.render]: the position of the scene the
    loop was at, and the scene collection as the host saw it then. *)
Record RenderCall := {
  call_scene : nat;
  call_scenes : list Scene;
}.

(** [bpy.data.scenes] in collection order, the host's disk, and the
    render calls attempted so far (oldest first). *)
Record World := {
  scenes : list Scene;
  disk : Disk;
  renders : list RenderCall;
}.

(** Python's [int] on a [str], base 10: the integer read in the text, if
    there is one.  It is a builtin of the interpreter the host embeds,
    not part of the repository, and is taken as given. *)
Variable parse_int : string -> option Z.

(** The host's render operator, [bpy.ops.render.render(write_still=True)].
    It is not part of the repository.  It receives no argument naming a
    scene: it reads the scene collection and the disk, and either
    produces the new disk or fails.  It leaves the scene collection as
    it is (the spec: the collection "is unaffected by this script
    beyond the fields listed"). *)
Variable render_op : list Scene -> Disk -> option Disk.

(** *** Statements as state transformers that may raise *)

Definition M (A : Type) : Type := World -> result A * World.

#[local] Instance M_ret : MRet M := fun A a w => (Ok a, w).
#[local] Instance M_bind : MBind M := fun A B f m w =>
  match m w with
  | (Ok a, w') => f a w'
  | (Raise e, w') => (Raise e, w')
  end.

(** An expression that only computes: its exception, if any, is raised
    in the current world. *)
Definition eval {A} (r : result A) : M A := fun w => (r, w).

(** [int(s)] *)
Definition int (s : string) : result Z :=
  match parse_int s with
  | Some n => Ok n
  | None => Raise ValueError
  end.

(** [os.environ[key]] *)
Definition environ_get (env : environ) (key : string) : result string :=
  match env !! key with
  | Some v => Ok v
  | None => Raise (KeyError key)
  end.

(** *** Attribute stores

    What a scene holds once a value has been accepted (the [put_]
    functions), and the stores themselves, which refuse an integer that
    does not fit a C [int]. *)
Definition put_resolution_x (v : Z) (s : Scene) : Scene :=
  {| render := {| resolution_x := clamp resolution_min resolution_max v;
                  resolution_y := resolution_y (render s);
                  filepath := filepath (render s);
                  render_rest := render_rest (render s) |};
     frame_start := frame_start s;
     frame_end := frame_end s;
     scene_rest := scene_rest s |}.

Definition put_resolution_y (v : Z) (s : Scene) : Scene :=
  {| render := {| resolution_x := resolution_x (render s);
                  resolution_y := clamp resolution_min resolution_max v;
                  filepath := filepath (render s);
                  render_rest := render_rest (render s) |};
     frame_start := frame_start s;
     frame_end := frame_end s;
     scene_rest := scene_rest s |}.

Definition put_filepath (v : string) (s : Scene) : Scene :=
  {| render := {| resolution_x := resolution_x (render s);
                  resolution_y := resolution_y (render s);
                  filepath := string_take filepath_bytes v;
                  render_rest := render_rest (render s) |};
     frame_start := frame_start s;
     frame_end := frame_end s;
     scene_rest := scene_rest s |}.

(** The last frame is kept within its bounds, and a first frame beyond
    it is brought down to it. *)
Definition put_frame_end (v : Z) (s : Scene) : Scene :=
  let last := clamp frame_min frame_max v in
  {| render := render s;
     frame_start := Z.min (frame_start s) last;
     frame_end := last;
     scene_rest := scene_rest s |}.

Definition store_int (put : Z -> Scene -> Scene) (v : Z) (s : Scene)
  : result Scene :=
  if in_int_range v then Ok (put v s) else Raise ValueError.

(** [scene.render.resolution_x = v] *)
Definition set_resolution_x : Z -> Scene -> result Scene :=
  store_int put_resolution_x.

(** [scene.render.resolution_y = v] *)
Definition set_resolution_y : Z -> Scene -> result Scene :=
  store_int put_resolution_y.

(** [scene.render.filepath = v] *)
Definition set_filepath (v : string) (s : Scene) : result Scene :=
  Ok (put_filepath v s).

(** [scene.frame_end = v] *)
Definition set_frame_end : Z -> Scene -> result Scene :=
  store_int put_frame_end.

(** What the stores of one iteration amount to when all are accepted:
    the two resolution stores, and all four. *)
Definition sized (n : Z) (s : Scene) : Scene :=
  put_resolution_y n (put_resolution_x n s).

Definition configured (n : Z) (path : string) (s : Scene) : Scene :=
  put_frame_end 1 (put_filepath path (sized n s)).

(** A store into the scene at position [i].  A scene is a host object
    the loop variable refers to; it is addressed here by its position in
    the collection.  A refused store leaves the world as it is.  The
    loop only visits positions of the collection. *)
Definition store (i : nat) (f : Scene -> result Scene) : M unit := fun w =>
  match scenes w !! i with
  | Some s =>
      match f s with
      | Ok s' => (Ok tt, {| scenes := <[i := s']> (scenes w);
                            disk := disk w;
                            renders := renders w |})
      | Raise e => (Raise e, w)
      end
  | None => (Ok tt, w)
  end.

(** [bpy.ops.render.render(write_still=True)], called while the loop is
    at scene [i].  The attempt is recorded whether or not the host
    succeeds. *)
Definition ops_render (i : nat) : M unit := fun w =>
  let call := {| call_scene := i; call_scenes := scenes w |} in
  let calls := (renders w ++ [call])%list in
  match render_op (scenes w) (disk w) with
  | Some d => (Ok tt, {| scenes := scenes w; disk := d; renders := calls |})
  | None => (Raise RuntimeError,
             {| scenes := scenes w; disk := disk w; renders := calls |})
  end.

(** A [for] loop over positions; an exception leaves the loop. *)
Fixpoint for_each (body : nat -> M unit) (positions : list nat) : M unit :=
  match positions with
  | [] => mret tt
  | i :: rest => body i ;; for_each body rest
  end.

(** [for scene in bpy.data.scenes: body].  Neither the script nor the
    render operator adds or removes a scene, so the positions to visit
    are those of the collection as the loop starts. *)
Definition for_scene (body : nat -> M unit) : M unit := fun w =>
  for_each body (seq 0 (length (scenes w))) w.

(** *** The script *)

Definition filepath_template : string :=
  "assets/icons/hicolor/%sx%s/apps/%s.png".

(** Lines 5 to 9, for the scene at position [i]. *)
Definition loop_body (env : environ) (xy : string) (i : nat) : M unit :=
  n ← eval (int xy);
  store i (set_resolution_x n) ;;
  n ← eval (int xy);
  store i (set_resolution_y n) ;;
  app_id ← eval (environ_get env "APP_ID");
  path ← eval (format filepath_template [xy; xy; app_id]);
  store i (set_filepath path) ;;
  store i (set_frame_end 1) ;;
  ops_render i.

Definition render_image (env : environ) : M unit :=
  xy ← eval (environ_get env "XY");
  for_scene (loop_body env xy).

(** The script started in a host holding [scs] and [d], no render call
    made yet. *)
Definition run (env : environ) (scs : list Scene) (d : Disk)
  : result unit * World :=
  render_image env {| scenes := scs; disk := d; renders := [] |}.

(** The disk after the host has served the calls [calls] one after the
    other, each on the disk the previous one left. *)
Fixpoint replay (calls : list RenderCall) (d : Disk) : option Disk :=
  match calls with
  | [] => Some d
  | c :: rest =>
      match render_op (call_scenes c) d with
      | Some d' => replay rest d'
      | None => None
      end
  end.

End Driver.

Arguments RenderSettings : clear implicits.
Arguments Scene : clear implicits.
Arguments RenderCall : clear implicits.
Arguments World : clear implicits.

(** ** The path the spec announces

    [assets/icons/hicolor/{XY}x{XY}/apps/{APP_ID}.png], written by
    concatenation.  The script computes its path with the [%] operator;
    [format_filepath_template] below relates the two. *)
Definition icon_path (xy app_id : string) : string :=
  "assets/icons/hicolor/" ++ xy ++ "x" ++ xy ++ "/apps/" ++ app_id ++ ".png".

(** ** The collection while the loop runs

    [progress f j scs]: the first [j] scenes have been through [f], the
    others are as they were.  [call_at f scs k]: the render call made
    while the loop is at scene [k], which is when [k + 1] scenes have been
    through [f]. *)
Definition progress {R T : Type} (f : Scene R T -> Scene R T) (j : nat)
    (scs : list (Scene R T)) : list (Scene R T) :=
  ((f <$> take j scs) ++ drop j scs)%list.

Definition call_at {R T : Type} (f : Scene R T -> Scene R T)
    (scs : list (Scene R T)) (k : nat) : RenderCall R T :=
  {| call_scene := k; call_scenes := progress f (S k) scs |}.

(** Two scenes that differ at most in the four fields of the script. *)
Definition same_rest {R T : Type} (s s' : Scene R T) : Prop :=
  scene_rest s' = scene_rest s /\
  render_rest (render s') = render_rest (render s) /\
  frame_start s' = frame_start s.

(** Two scenes that differ at most in the four fields of the script and
    in the first frame, which in [s'] is either the one of [s] or has
    come down to 1. *)
Definition same_but_start {R T : Type} (s s' : Scene R T) : Prop :=
  scene_rest s' = scene_rest s /\
  render_rest (render s') = render_rest (render s) /\
  (frame_start s' = frame_start s \/
   1 < frame_start s /\ frame_start s' = 1).

(** ** A host that renders its current scene

    The render operator of the script is given no scene; the host's
    interface says it then renders the current scene,
    [bpy.context.scene], and with [write_still] saves the result under
    the output path of that scene.  Such a host is described by the
    position [current] of the current scene in the collection and by the
    files a render of a scene writes, [files_of]; a file already on disk
    under the same name is replaced, the others are left. *)
Definition render_current {R T Image : Type} (current : nat)
    (files_of : Scene R T -> option (gmap string Image))
  : list (Scene R T) -> gmap string Image -> option (gmap string Image) :=
  fun scs d =>
    match scs !! current with
    | Some s =>
        match files_of s with
        | Some files => Some (files ∪ d)
        | None => None
        end
    | None => None
    end.

(** ** Concrete inputs for closed examples *)

Module Demo.

(** *** A reader of decimal integers in ASCII texts

    It follows Python's [int] on texts made of ASCII characters and of
    at most 4300 digits, and is used below on such texts only: white
    space (space, tab, line feed, vertical tab, form feed, carriage
    return) is dropped at both ends, one sign is allowed, and single
    underscores may separate digits. *)

Definition is_space (c : ascii) : bool :=
  let n := nat_of_ascii c in
  ((n =? 32) || ((9 <=? n) && (n <=? 13)))%nat.

Definition digit_val (c : ascii) : option Z :=
  let n := nat_of_ascii c in
  if ((48 <=? n) && (n <=? 57))%nat then Some (Z.of_nat n - 48) else None.

Fixpoint lstrip (s : string) : string :=
  match s with
  | String c r => if is_space c then lstrip r else s
  | EmptyString => EmptyString
  end.

Fixpoint rstrip (s : string) : string :=
  match s with
  | String c r =>
      match rstrip r with
      | EmptyString => if is_space c then EmptyString else String c EmptyString
      | r' => String c r'
      end
  | EmptyString => EmptyString
  end.

Definition strip (s : string) : string := rstrip (lstrip s).

(** [digits acc after_digit s]: [after_digit] tells whether the previous
    character was a digit, which is where an underscore or the end of
    the literal may come. *)
Fixpoint digits (acc : Z) (after_digit : bool) (s : string) : option Z :=
  match s with
  | EmptyString => if after_digit then Some acc else None
  | String c r =>
      match digit_val c with
      | Some d => digits (10 * acc + d) true r
      | None =>
          if Ascii.eqb c "_" && after_digit then digits acc false r else None
      end
  end.

Definition parse_int (s : string) : option Z :=
  match strip s with
  | String "-" r => Z.opp <$> digits 0 false r
  | String "+" r => digits 0 false r
  | t => digits 0 false t
  end.

(** *** Scenes, hosts, environments *)

(** A scene with nothing but a name besides the fields of the model. *)
Abbreviation scene := (Scene unit string).

Definition mk_scene (name : string) (x y : Z) (path : string)
    (first last : Z) : scene :=
  {| render := {| resolution_x := x; resolution_y := y;
                  filepath := path; render_rest := tt |};
     frame_start := first;
     frame_end := last;
     scene_rest := name |}.

Definition front : scene := mk_scene "Front" 1920 1080 "/tmp/" 1 250.
Definition back : scene := mk_scene "Back" 640 480 "//render/" 1 120.

(** A scene whose first frame is beyond 1. *)
Definition intro : scene := mk_scene "Intro" 1280 720 "//intro/" 10 60.

(** The two scenes with other values in the fields of the script. *)
Definition front_other : scene := mk_scene "Front" 4 4 "" 1 1.
Definition back_other : scene := mk_scene "Back" 65536 8 "out.png" 1 300.

(** A host whose render always succeeds; its disk counts the images
    written. *)
Definition host : list scene -> nat -> option nat :=
  fun _ written => Some (S written).

(** A host whose render always fails. *)
Definition broken_host : list scene -> nat -> option nat :=
  fun _ _ => None.

(** A host whose first render succeeds and whose later renders fail. *)
Definition flaky_host : list scene -> nat -> option nat :=
  fun _ written =>
    match written with
    | O => Some 1%nat
    | S _ => None
    end.

(** A picture is told by the scene it shows and its size; a render
    writes one picture, under the output path of the scene. *)
Definition picture : Type := string * Z * Z.

Definition files_of (s : scene) : option (gmap string picture) :=
  Some {[ filepath (render s) :=
            (scene_rest s, resolution_x (render s), resolution_y (render s)) ]}.

Definition env_48 : environ :=
  {[ "XY" := "48"; "APP_ID" := "org.example.App" ]}.

(** [env_48] with variables the script does not name. *)
Definition env_48_more : environ :=
  <[ "HOME" := "/home/build" ]> (<[ "LANG" := "C" ]> env_48).

(** An application id of 2000 bytes. *)
Fixpoint letters (n : nat) : string :=
  match n with
  | O => EmptyString
  | S n' => String "a" (letters n')
  end.

Definition long_id : string := letters 2000.

End Demo.

(** ** Basic facts *)

Ltac unfold_script :=
  unfold run, render_image, for_scene, mbind, M_bind, eval, environ_get.

(** *** What is kept of a path *)

Lemma string_take_length (m : nat) (v : string) :
  (String.length v <= m)%nat -> string_take m v = v.
Proof.
  revert m. induction v as [|c v IH]; intros [|m] Hm; cbn in *; try done.
  - lia.
  - f_equal. apply IH. lia.
Qed.

Lemma string_take_take (m : nat) (v : string) :
  string_take m (string_take m v) = string_take m v.
Proof.
  revert v. induction m as [|m IH]; intros [|c v]; cbn; try done.
  by rewrite IH.
Qed.

Lemma length_string_take (m : nat) (v : string) :
  String.length (string_take m v) = Nat.min m (String.length v).
Proof.
  revert v. induction m as [|m IH]; intros [|c v]; cbn; try done.
  by rewrite IH.
Qed.

Arguments string_take : simpl never.

Section Facts.

Context {RenderRest SceneRest Disk : Type}.
Variable parse_int : string -> option Z.
Variable render_op : list (Scene RenderRest SceneRest) -> Disk -> option Disk.

Implicit Types (env : environ) (xy app : string) (n : Z) (i j k : nat).
Implicit Types (s : Scene RenderRest SceneRest).
Implicit Types (scs : list (Scene RenderRest SceneRest)).
Implicit Types (w : World RenderRest SceneRest Disk) (d : Disk).

(** The template applied to [(xy, xy, app)] is the announced path. *)
Lemma format_filepath_template xy app :
  format filepath_template [xy; xy; app] = Ok (icon_path xy app).
Proof. reflexivity. Qed.

(** *** Stores *)

Lemma clamp_in_bounds lo hi v : lo <= v <= hi -> clamp lo hi v = v.
Proof. unfold clamp. lia. Qed.

Lemma store_ok i (f : Scene RenderRest SceneRest -> result _) w s s' :
  scenes w !! i = Some s ->
  f s = Ok s' ->
  store i f w
  = (Ok tt, {| scenes := <[i := s']> (scenes w);
               disk := disk w; renders := renders w |}).
Proof. intros Hs Hf. unfold store. by rewrite Hs, Hf. Qed.

Lemma store_raise i (f : Scene RenderRest SceneRest -> result _) w s e :
  scenes w !! i = Some s ->
  f s = Raise e ->
  store i f w = (Raise e, w).
Proof. intros Hs Hf. unfold store. by rewrite Hs, Hf. Qed.

Lemma store_int_ok (put : Z -> Scene RenderRest SceneRest -> _) n s :
  in_int_range n = true -> store_int put n s = Ok (put n s).
Proof. intros Hn. unfold store_int. by rewrite Hn. Qed.

(** *** One iteration, case by case *)

Lemma loop_body_bad_int env xy i w :
  parse_int xy = None ->
  loop_body parse_int render_op env xy i w = (Raise ValueError, w).
Proof.
  intros Hint. unfold loop_body, mbind, M_bind, eval, int. by rewrite Hint.
Qed.

Lemma loop_body_bad_store env xy n i w s :
  parse_int xy = Some n ->
  in_int_range n = false ->
  scenes w !! i = Some s ->
  loop_body parse_int render_op env xy i w = (Raise ValueError, w).
Proof.
  intros Hint Hn Hs. unfold loop_body, mbind, M_bind, eval, int.
  rewrite Hint. erewrite store_raise; [done..|].
  unfold set_resolution_x, store_int. by rewrite Hn.
Qed.

Lemma loop_body_no_app env xy n i w s :
  parse_int xy = Some n ->
  in_int_range n = true ->
  scenes w !! i = Some s ->
  env !! "APP_ID" = None ->
  loop_body parse_int render_op env xy i w
  = (Raise (KeyError "APP_ID"),
     {| scenes := <[i := sized n s]> (scenes w);
        disk := disk w; renders := renders w |}).
Proof.
  intros Hint Hn Hs Happ.
  assert (i < length (scenes w))%nat as Hi by by eapply lookup_lt_Some.
  unfold loop_body, mbind, M_bind, eval, int, environ_get.
  rewrite Hint, Happ.
  erewrite store_ok; [|done|by apply store_int_ok].
  erewrite store_ok;
    [|by apply list_lookup_insert_eq|by apply store_int_ok].
  cbn [scenes disk renders]. by rewrite list_insert_insert_eq.
Qed.

Lemma loop_body_render env xy n app i w s :
  parse_int xy = Some n ->
  in_int_range n = true ->
  scenes w !! i = Some s ->
  env !! "APP_ID" = Some app ->
  loop_body parse_int render_op env xy i w
  = ops_render render_op i
      {| scenes := <[i := configured n (icon_path xy app) s]> (scenes w);
         disk := disk w; renders := renders w |}.
Proof.
  intros Hint Hn Hs Happ.
  assert (i < length (scenes w))%nat as Hi by by eapply lookup_lt_Some.
  unfold loop_body, mbind, M_bind, eval, int, environ_get.
  rewrite Hint, Happ, format_filepath_template.
  erewrite store_ok; [|done|by apply store_int_ok].
  erewrite store_ok;
    [|by apply list_lookup_insert_eq|by apply store_int_ok].
  erewrite store_ok;
    [|cbn [scenes]; apply list_lookup_insert_eq;
      by rewrite length_insert|reflexivity].
  erewrite store_ok;
    [|cbn [scenes]; apply list_lookup_insert_eq;
      by rewrite !length_insert|by apply store_int_ok].
  cbn [scenes disk renders]. by rewrite !list_insert_insert_eq.
Qed.

(** *** The collection as the loop advances *)

Lemma progress_0 (f : Scene RenderRest SceneRest -> _) scs :
  progress f 0 scs = scs.
Proof. unfold progress. by rewrite take_0, drop_0. Qed.

Lemma progress_all (f : Scene RenderRest SceneRest -> _) scs j :
  (length scs <= j)%nat -> progress f j scs = f <$> scs.
Proof.
  intros Hj. unfold progress.
  rewrite take_ge, drop_ge by done. apply app_nil_r.
Qed.

Lemma length_progress (f : Scene RenderRest SceneRest -> _) scs j :
  length (progress f j scs) = length scs.
Proof.
  unfold progress. rewrite length_app, length_fmap, <- length_app.
  by rewrite take_drop.
Qed.

Lemma progress_lookup_lt (f : Scene RenderRest SceneRest -> _) scs j k :
  (k < j)%nat -> progress f j scs !! k = f <$> scs !! k.
Proof.
  unfold progress. revert j k.
  induction scs as [|s scs IH]; intros [|j] [|k] Hk; simpl; try lia; try done.
  apply IH. lia.
Qed.

Lemma progress_lookup_ge (f : Scene RenderRest SceneRest -> _) scs j k :
  (j <= k)%nat -> progress f j scs !! k = scs !! k.
Proof.
  unfold progress. revert j k.
  induction scs as [|s scs IH]; intros [|j] [|k] Hk; simpl; try lia; try done.
  apply IH. lia.
Qed.

Lemma progress_step (f : Scene RenderRest SceneRest -> _) scs j s :
  scs !! j = Some s ->
  <[j := f s]> (progress f j scs) = progress f (S j) scs.
Proof.
  unfold progress. revert j.
  induction scs as [|s0 scs IH]; intros [|j] Hj; simpl in *; try done.
  - by simplify_eq.
  - f_equal. by apply IH.
Qed.

(** *** The loop and the whole script, case by case *)

Lemma for_each_cons (body : nat -> M unit) i rest w :
  for_each body (i :: rest) w
  = match body i w with
    | (Ok _, w') => for_each body rest w'
    | (Raise e, w') => (Raise e, w')
    end.
Proof. reflexivity. Qed.

(** [XY] missing: line 3 raises, nothing else happens. *)
Lemma run_no_xy env scs d :
  env !! "XY" = None ->
  run parse_int render_op env scs d
  = (Raise (KeyError "XY"), {| scenes := scs; disk := d; renders := [] |}).
Proof. intros Hxy. unfold_script. by rewrite Hxy. Qed.

(** No scene: the loop body never runs. *)
Lemma run_no_scene env xy d :
  env !! "XY" = Some xy ->
  run parse_int render_op env [] d
  = (Ok tt, {| scenes := []; disk := d; renders := [] |}).
Proof. intros Hxy. unfold_script. by rewrite Hxy. Qed.

(** [XY] not a number: line 5 raises at the first scene. *)
Lemma run_bad_int env xy s scs d :
  env !! "XY" = Some xy ->
  parse_int xy = None ->
  run parse_int render_op env (s :: scs) d
  = (Raise ValueError, {| scenes := s :: scs; disk := d; renders := [] |}).
Proof.
  intros Hxy Hint. unfold_script. rewrite Hxy. cbn [scenes length seq].
  rewrite for_each_cons. by rewrite loop_body_bad_int.
Qed.

(** [XY] a number that does not fit a C [int]: the store of line 5 is
    refused at the first scene. *)
Lemma run_bad_store env xy n s scs d :
  env !! "XY" = Some xy ->
  parse_int xy = Some n ->
  in_int_range n = false ->
  run parse_int render_op env (s :: scs) d
  = (Raise ValueError, {| scenes := s :: scs; disk := d; renders := [] |}).
Proof.
  intros Hxy Hint Hn. unfold_script. rewrite Hxy. cbn [scenes length seq].
  rewrite for_each_cons. by erewrite loop_body_bad_store.
Qed.

(** [APP_ID] missing: line 7 raises at the first scene, after lines 5
    and 6. *)
Lemma run_no_app env xy n s scs d :
  env !! "XY" = Some xy ->
  parse_int xy = Some n ->
  in_int_range n = true ->
  env !! "APP_ID" = None ->
  run parse_int render_op env (s :: scs) d
  = (Raise (KeyError "APP_ID"),
     {| scenes := sized n s :: scs; disk := d; renders := [] |}).
Proof.
  intros Hxy Hint Hn Happ. unfold_script. rewrite Hxy.
  cbn [scenes length seq]. rewrite for_each_cons.
  by erewrite loop_body_no_app.
Qed.

(** Both variables usable: the loop advances scene by scene until the
    end of the collection or the first failure of the host. *)
Lemma loop_valid env xy n app scs :
  parse_int xy = Some n ->
  in_int_range n = true ->
  env !! "APP_ID" = Some app ->
  let f := configured n (icon_path xy app) in
  forall k i d lg,
    (i + k = length scs)%nat ->
    exists j d' r,
      (i <= j <= length scs)%nat /\
      for_each (loop_body parse_int render_op env xy) (seq i k)
        {| scenes := progress f i scs; disk := d; renders := lg |}
      = (r, {| scenes := progress f j scs; disk := d';
               renders := (lg ++ (call_at f scs <$> seq i (j - i)))%list |}) /\
      (r = Ok tt /\ j = length scs /\
       replay render_op (call_at f scs <$> seq i (j - i)) d = Some d' \/
       r = Raise RuntimeError /\ (i < j)%nat /\
       render_op (progress f j scs) d' = None).
Proof.
  intros Hint Hn Happ f k.
  induction k as [|k IH]; intros i d lg Hlen.
  - exists i, d, (Ok tt). rewrite Nat.sub_diag.
    split; [lia|]. split; [|left; repeat split; lia].
    cbn. by rewrite app_nil_r.
  - destruct (lookup_lt_is_Some_2 scs i) as [s Hs]; [lia|].
    cbn [seq]. rewrite for_each_cons.
    erewrite loop_body_render;
      [|done|done|cbn [scenes]; by rewrite progress_lookup_ge|done].
    cbn [scenes disk renders]. fold f. rewrite progress_step by done.
    unfold ops_render. cbn [scenes disk renders].
    destruct (render_op (progress f (S i) scs) d) as [d1|] eqn:Hop.
    + destruct (IH (S i) d1 (lg ++ [call_at f scs i])%list) as
        (j & d' & r & Hj & Hrun & Hr); [lia|].
      exists j, d', r.
      replace (j - i)%nat with (S (j - S i)) by lia.
      split; [lia|]. split.
      * etrans; [exact Hrun|]. do 2 f_equal.
        cbn [seq fmap list_fmap]. by rewrite <- app_assoc.
      * destruct Hr as [(-> & -> & Hd)|(-> & ? & ?)]; [left|right].
        -- repeat split. cbn [seq fmap list_fmap replay call_at call_scenes].
           by rewrite Hop.
        -- repeat split; [lia|done].
    + exists (S i), d, (Raise RuntimeError). split; [lia|]. split.
      * replace (S i - i)%nat with 1%nat by lia. reflexivity.
      * right. repeat split; [lia|done].
Qed.

Lemma run_valid env xy n app scs d :
  env !! "XY" = Some xy ->
  parse_int xy = Some n ->
  in_int_range n = true ->
  env !! "APP_ID" = Some app ->
  let f := configured n (icon_path xy app) in
  exists j d' r,
    (j <= length scs)%nat /\
    run parse_int render_op env scs d
    = (r, {| scenes := progress f j scs; disk := d';
             renders := call_at f scs <$> seq 0 j |}) /\
    (r = Ok tt /\ j = length scs /\
     replay render_op (call_at f scs <$> seq 0 j) d = Some d' \/
     r = Raise RuntimeError /\ (0 < j)%nat /\
     render_op (progress f j scs) d' = None).
Proof.
  intros Hxy Hint Hn Happ f.
  destruct (loop_valid env xy n app scs Hint Hn Happ (length scs) 0%nat d [])
    as (j & d' & r & Hj & Hrun & Hr); [done|].
  rewrite Nat.sub_0_r in Hrun, Hr.
  exists j, d', r. split; [lia|]. split; [|done].
  unfold_script. rewrite Hxy. cbn [scenes].
  fold f in Hrun. by rewrite progress_0 in Hrun.
Qed.

(** *** Reading the record of render calls *)

Lemma call_at_lookup (f : Scene RenderRest SceneRest -> _) scs j k c :
  (call_at f scs <$> seq 0 j) !! k = Some c ->
  (k < j)%nat /\ c = call_at f scs k.
Proof.
  rewrite list_lookup_fmap. intros Hc.
  destruct (seq 0 j !! k) as [k'|] eqn:Hk; [|done].
  apply lookup_seq in Hk as [-> ?]. by simplify_eq/=.
Qed.

Lemma call_at_scene (f : Scene RenderRest SceneRest -> _) scs k s :
  scs !! k = Some s ->
  call_scenes (call_at f scs k) !! k = Some (f s).
Proof.
  intros Hs. cbn. rewrite progress_lookup_lt by lia. by rewrite Hs.
Qed.

Lemma same_rest_refl s : same_rest s s.
Proof. by repeat split. Qed.

Lemma same_but_start_refl s : same_but_start s s.
Proof. repeat split. by left. Qed.

Lemma same_but_start_sized n s : same_but_start s (sized n s).
Proof. repeat split. by left. Qed.

Lemma same_but_start_configured n (path : string) s :
  same_but_start s (configured n path s).
Proof.
  repeat split. cbn. change (clamp frame_min frame_max 1) with 1. lia.
Qed.

Lemma same_but_start_progress (f : Scene RenderRest SceneRest -> _) scs j :
  (forall s, same_but_start s (f s)) ->
  Forall2 same_but_start scs (progress f j scs).
Proof.
  intros Hf. unfold progress. revert j.
  induction scs as [|s scs IH]; intros [|j]; cbn.
  - constructor.
  - constructor.
  - apply Forall_Forall2_diag, Forall_forall. intros.
    apply same_but_start_refl.
  - constructor; [apply Hf|apply IH].
Qed.

(** Whatever the environment, the calls recorded are those of a run with
    both variables usable, up to some scene. *)
Lemma run_calls env scs d :
  let out := run parse_int render_op env scs d in
  renders out.2 = [] /\ (out.1 = Ok tt -> scs = []) \/
  exists xy n app j,
    env !! "XY" = Some xy /\ parse_int xy = Some n /\
    in_int_range n = true /\ env !! "APP_ID" = Some app /\
    (j <= length scs)%nat /\ (out.1 = Ok tt -> j = length scs) /\
    renders out.2
    = call_at (configured n (icon_path xy app)) scs <$> seq 0 j.
Proof.
  cbn zeta.
  destruct (env !! "XY") as [xy|] eqn:Hxy;
    [|left; by rewrite run_no_xy].
  destruct scs as [|s scs]; [left; by erewrite run_no_scene|].
  destruct (parse_int xy) as [n|] eqn:Hint;
    [|left; by erewrite run_bad_int].
  destruct (in_int_range n) eqn:Hn;
    [|left; by erewrite run_bad_store].
  destruct (env !! "APP_ID") as [app|] eqn:Happ;
    [|left; by erewrite run_no_app].
  right. exists xy, n, app.
  destruct (run_valid env xy n app (s :: scs) d Hxy Hint Hn Happ)
    as (j & d' & r & Hj & -> & Hr).
  exists j. repeat split; try done.
  cbn. intros ->. by destruct Hr as [(_ & -> & _)|(? & _)].
Qed.

End Facts.

(** ** Properties of the script *)

Section Claims.

Context {RenderRest SceneRest Disk : Type}.
Variable parse_int : string -> option Z.
Variable render_op : list (Scene RenderRest SceneRest) -> Disk -> option Disk.

Implicit Types (env : environ) (xy app : string) (n : Z) (i j k : nat).
Implicit Types (s : Scene RenderRest SceneRest).
Implicit Types (scs : list (Scene RenderRest SceneRest)).
Implicit Types (d : Disk).


(** C2, amended.  When [XY] is missing or not a number, no render call
    is attempted and the host is left as it was.  The process fails when
    [XY] is missing (at the lookup), and when [XY] is not a number and
    there is at least one scene (at the first [int(xy)]); with [XY]
    present and no scene, the script ends without an exception. *)
Theorem C2_unusable_xy env scs d :
  (env !! "XY" = None \/
   exists xy, env !! "XY" = Some xy /\ parse_int xy = None) ->
  let out := run parse_int render_op env scs d in
  out.2 = {| scenes := scs; disk := d; renders := [] |} /\
  match env !! "XY", scs with
  | None, _ => out.1 = Raise (KeyError "XY")
  | Some _, [] => out.1 = Ok tt
  | Some _, _ :: _ => out.1 = Raise ValueError
  end.
Proof.
  intros [Hxy|(xy & Hxy & Hint)] out; subst out; rewrite Hxy.
  - by rewrite run_no_xy.
  - destruct scs as [|s scs].
    + by erewrite run_no_scene.
    + by erewrite run_bad_int.
Qed.

(** C3, amended.  When [APP_ID] is missing, no render call is attempted
    and the disk is left as it was.  The process fails whenever there is
    at least one scene or [XY] is missing too: at the [XY] lookup, at the
    first [int(xy)], at the first resolution store when the number does
    not fit a C [int], or else at the [APP_ID] lookup of the first scene.
    With [XY] present and no scene, the script ends without an
    exception. *)
Theorem C3_missing_app_id env scs d :
  env !! "APP_ID" = None ->
  let out := run parse_int render_op env scs d in
  renders out.2 = [] /\
  disk out.2 = d /\
  match env !! "XY", scs with
  | None, _ => out.1 = Raise (KeyError "XY")
  | Some _, [] => out.1 = Ok tt
  | Some xy, _ :: _ =>
      match parse_int xy with
      | Some n =>
          if in_int_range n then out.1 = Raise (KeyError "APP_ID")
          else out.1 = Raise ValueError
      | None => out.1 = Raise ValueError
      end
  end.
Proof.
  intros Happ out; subst out.
  destruct (env !! "XY") as [xy|] eqn:Hxy; [|by rewrite run_no_xy].
  destruct scs as [|s scs]; [by erewrite run_no_scene|].
  destruct (parse_int xy) as [n|] eqn:Hint; [|by erewrite run_bad_int].
  destruct (in_int_range n) eqn:Hn.
  - by erewrite run_no_app.
  - by erewrite run_bad_store.
Qed.

(** C4, amended.  With at least one scene, the script rejects [XY]
    exactly when it does not parse as an integer or the integer does not
    fit a C [int]: it then fails at the first scene, the host left as it
    was, and no default resolution is used.  Sign is never checked: an
    integer that fits, be it zero or negative, raises no [ValueError];
    both resolutions of the first scene take it, brought into the range
    4..65536 of the host, which is 4 for zero and for negatives. *)
Theorem C4_integer_check_only env xy scs d :
  env !! "XY" = Some xy ->
  scs <> [] ->
  let out := run parse_int render_op env scs d in
  let unchanged := {| scenes := scs; disk := d; renders := [] |} in
  match parse_int xy with
  | None => out = (Raise ValueError, unchanged)
  | Some n =>
      if in_int_range n then
        out.1 <> Raise ValueError /\
        exists s, scenes out.2 !! 0%nat = Some s /\
                  resolution_x (render s)
                  = clamp resolution_min resolution_max n /\
                  resolution_y (render s)
                  = clamp resolution_min resolution_max n /\
                  (n <= 0 -> resolution_x (render s) = 4 /\
                             resolution_y (render s) = 4)
      else out = (Raise ValueError, unchanged)
  end.
Proof.
  intros Hxy Hne out unchanged; subst out unchanged.
  destruct scs as [|s scs]; [done|].
  destruct (parse_int xy) as [n|] eqn:Hint; [|by erewrite run_bad_int].
  destruct (in_int_range n) eqn:Hn; [|by erewrite run_bad_store].
  assert (n <= 0 -> clamp resolution_min resolution_max n = 4) as Hlow.
  { unfold clamp, resolution_min, resolution_max. lia. }
  destruct (env !! "APP_ID") as [app|] eqn:Happ.
  - destruct (run_valid parse_int render_op env xy n app (s :: scs) d
                Hxy Hint Hn Happ)
      as (j & d' & r & Hj & -> & Hr). cbn [fst snd scenes].
    assert (0 < j)%nat as Hpos.
    { destruct Hr as [(_ & -> & _)|(_ & ? & _)]; cbn; lia. }
    split; [by destruct Hr as [(-> & _)|(-> & _)]|].
    rewrite progress_lookup_lt by done. cbn. eauto 10.
  - erewrite run_no_app by done. cbn. split; [done|eauto 10].
Qed.



(** C8, amended.  Whatever the environment and however the run ends, the
    collection keeps its scenes, position by position, and each scene
    keeps every field other than [resolution_x], [resolution_y],
    [filepath], [frame_end] and [frame_start]; the first frame either is
    as it was or, having been beyond 1, has come down to 1 with the
    store of the last frame. *)
Theorem C8_frame env scs d :
  let out := run parse_int render_op env scs d in
  length (scenes out.2) = length scs /\
  Forall2 same_but_start scs (scenes out.2).
Proof.
  intros out.
  assert (Forall2 same_but_start scs (scenes out.2)) as Hall;
    [|split; [symmetry; eapply Forall2_length, Hall|done]].
  assert (Forall2 same_but_start scs scs) as Hrefl.
  { apply Forall_Forall2_diag, Forall_forall. intros.
    apply same_but_start_refl. }
  subst out.
  destruct (env !! "XY") as [xy|] eqn:Hxy; [|by rewrite run_no_xy].
  destruct scs as [|s scs]; [by erewrite run_no_scene|].
  destruct (parse_int xy) as [n|] eqn:Hint; [|by erewrite run_bad_int].
  destruct (in_int_range n) eqn:Hn; [|by erewrite run_bad_store].
  destruct (env !! "APP_ID") as [app|] eqn:Happ.
  - destruct (run_valid parse_int render_op env xy n app (s :: scs) d
                Hxy Hint Hn Happ)
      as (j & d' & r & Hj & -> & Hr). cbn [snd scenes].
    apply same_but_start_progress, same_but_start_configured.
  - erewrite run_no_app by done. cbn [snd scenes].
    apply Forall2_cons_1 in Hrefl as [_ Hrefl].
    constructor; [apply same_but_start_sized|done].
Qed.

(** C9.  With no scene in the collection and [XY] present, whatever its
    value and whether or not [APP_ID] is present, the script ends without
    an exception, having changed no scene and attempted no render. *)
Theorem C9_no_scene env xy d :
  env !! "XY" = Some xy ->
  run parse_int render_op env [] d
  = (Ok tt, {| scenes := []; disk := d; renders := [] |}).
Proof. apply run_no_scene. Qed.

(** C10, amended.  With [APP_ID] missing, [XY] a number that fits a C
    [int] and at least one scene, the process fails with the [APP_ID]
    lookup error before any render call, and at that point the first
    scene already has both resolutions set from [int(XY)]: to [int(XY)]
    brought into the range 4..65536 of the host, hence to [int(XY)]
    itself when it lies in that range.  Its [filepath] and [frame_end]
    are as they were, and so are the other scenes. *)
Theorem C10_failure_not_atomic env xy n s scs d :
  env !! "APP_ID" = None ->
  env !! "XY" = Some xy ->
  parse_int xy = Some n ->
  in_int_range n = true ->
  exists s',
    run parse_int render_op env (s :: scs) d
    = (Raise (KeyError "APP_ID"),
       {| scenes := s' :: scs; disk := d; renders := [] |}) /\
    resolution_x (render s') = clamp resolution_min resolution_max n /\
    resolution_y (render s') = clamp resolution_min resolution_max n /\
    (resolution_min <= n <= resolution_max ->
     resolution_x (render s') = n /\ resolution_y (render s') = n) /\
    filepath (render s') = filepath (render s) /\
    frame_end s' = frame_end s.
Proof.
  intros Happ Hxy Hint Hn. exists (sized n s).
  erewrite run_no_app by done. repeat split.
  all: cbn; by rewrite clamp_in_bounds.
Qed.

End Claims.

(** ** With a host that renders its current scene *)

Section Current.

Context {RenderRest SceneRest Image : Type}.
Variable parse_int : string -> option Z.
Variable current : nat.
Variable files_of :
  Scene RenderRest SceneRest -> option (gmap string Image).

Implicit Types (env : environ) (xy app : string) (n : Z) (i j k : nat).
Implicit Types (s : Scene RenderRest SceneRest).
Implicit Types (scs : list (Scene RenderRest SceneRest)).
Implicit Types (d : gmap string Image).

Lemma replay_app (op : list (Scene RenderRest SceneRest) -> _)
    (calls calls' : list (RenderCall RenderRest SceneRest)) d :
  replay op (calls ++ calls') d
  = match replay op calls d with
    | Some d' => replay op calls' d'
    | None => None
    end.
Proof.
  revert d. induction calls as [|c calls IH]; intros d; cbn; [done|].
  by destruct (op (call_scenes c) d).
Qed.

(** Calls that all find the current scene in one state leave the files
    of one render of it. *)
Lemma replay_same_scene (calls : list (RenderCall RenderRest SceneRest))
    s (files : gmap string Image) d :
  files_of s = Some files ->
  Forall (fun c => call_scenes c !! current = Some s) calls ->
  replay (render_current current files_of) calls d
  = Some match calls with
         | [] => d
         | _ :: _ => files ∪ d
         end.
Proof.
  intros Hfiles Hall. revert d.
  induction Hall as [|c calls Hc _ IH]; intros d; [done|].
  cbn [replay]. unfold render_current at 1. rewrite Hc, Hfiles, IH.
  destruct calls; [done|].
  by rewrite (assoc_L (∪)), (idemp_L (∪)).
Qed.

Lemma current_in_progress (f : Scene RenderRest SceneRest -> _) scs j s :
  scs !! current = Some s ->
  progress f j scs !! current
  = Some (if decide (current < j)%nat then f s else s).
Proof.
  intros Hs. case_decide.
  - rewrite progress_lookup_lt by done. by rewrite Hs.
  - rewrite progress_lookup_ge by lia. done.
Qed.


End Current.

(** ** Closed instances *)

(** What the reader of ASCII integers accepts and what it rejects. *)
Example parse_int_samples :
  Demo.parse_int "48" = Some 48 /\ Demo.parse_int " 48 " = Some 48 /\
  Demo.parse_int "+7" = Some 7 /\ Demo.parse_int "007" = Some 7 /\
  Demo.parse_int "1_000" = Some 1000 /\
  Demo.parse_int "0" = Some 0 /\ Demo.parse_int "-5" = Some (-5) /\
  Demo.parse_int "abc" = None /\ Demo.parse_int "" = None /\
  Demo.parse_int "4 8" = None /\ Demo.parse_int "- 5" = None /\
  Demo.parse_int "1__0" = None /\ Demo.parse_int "48px" = None /\
  Demo.parse_int (String (ascii_of_nat 28) "48") = None.
Proof. repeat split. Qed.

(** The scenario of the spec: [XY=48], [APP_ID=org.example.App], one
    scene.  One render call, made on a scene of 48 by 48, one frame, the
    announced path; the rest of the scene is as it was. *)
Example scenario_48 :
  let after :=
    Demo.mk_scene "Front" 48 48
      "assets/icons/hicolor/48x48/apps/org.example.App.png" 1 1 in
  run Demo.parse_int Demo.host Demo.env_48 [Demo.front] 0%nat
  = (Ok tt,
     {| scenes := [after];
        disk := 1%nat;
        renders := [ {| call_scene := 0; call_scenes := [after] |} ] |}).
Proof. by vm_compute. Qed.

(** The host failing at the first of two scenes: the first scene is
    configured, the second is not reached. *)
Example scenario_broken_host :
  let after :=
    Demo.mk_scene "Front" 48 48
      "assets/icons/hicolor/48x48/apps/org.example.App.png" 1 1 in
  run Demo.parse_int Demo.broken_host Demo.env_48
    [Demo.front; Demo.back] 0%nat
  = (Raise RuntimeError,
     {| scenes := [after; Demo.back];
        disk := 0%nat;
        renders :=
          [ {| call_scene := 0; call_scenes := [after; Demo.back] |} ] |}).
Proof. by vm_compute. Qed.

(** A number beyond a C [int]: the first store is refused. *)
Example scenario_too_large :
  run Demo.parse_int Demo.host
    {[ "XY" := "2147483648"; "APP_ID" := "org.example.App" ]}
    [Demo.front] 0%nat
  = (Raise ValueError,
     {| scenes := [Demo.front]; disk := 0%nat; renders := [] |}).
Proof. by vm_compute. Qed.



(** [XY=abc] and no scene: the script ends without an exception. *)
Lemma C2_counterexample :
  let env : environ := {[ "XY" := "abc" ]} in
  let out := run Demo.parse_int Demo.host env [] 0%nat in
  (env !! "XY" = Some "abc" /\ Demo.parse_int "abc" = None) /\
  ~ (exists e, out.1 = Raise e).
Proof.
  split; [by vm_compute|]. intros [e He]. vm_compute in He. discriminate.
Qed.

(** [XY=abc] and one scene: the parse error, the host untouched. *)
Lemma C2_unusable_xy_witness :
  let env : environ := {[ "XY" := "abc" ]} in
  let out := run Demo.parse_int Demo.host env [Demo.front] 0%nat in
  out.2 = {| scenes := [Demo.front]; disk := 0%nat; renders := [] |} /\
  out.1 = Raise ValueError.
Proof.
  assert (({[ "XY" := "abc" ]} : environ) !! "XY" = Some "abc") as Hxy
    by reflexivity.
  exact (C2_unusable_xy Demo.parse_int Demo.host {[ "XY" := "abc" ]}
           [Demo.front] 0%nat
           (or_intror (ex_intro _ "abc" (conj Hxy eq_refl)))).
Defined.

(** [APP_ID] missing and no scene: the script ends without an exception. *)
Lemma C3_counterexample :
  let env : environ := {[ "XY" := "48" ]} in
  let out := run Demo.parse_int Demo.host env [] 0%nat in
  env !! "APP_ID" = None /\
  ~ (exists e, out.1 = Raise e).
Proof.
  split; [by vm_compute|]. intros [e He]. vm_compute in He. discriminate.
Qed.

(** [APP_ID] missing and two scenes: the lookup error, no render. *)
Lemma C3_missing_app_id_witness :
  let env : environ := {[ "XY" := "48" ]} in
  let out := run Demo.parse_int Demo.host env [Demo.front; Demo.back] 0%nat in
  renders out.2 = [] /\
  disk out.2 = 0%nat /\
  out.1 = Raise (KeyError "APP_ID").
Proof.
  assert (({[ "XY" := "48" ]} : environ) !! "APP_ID" = None) as Happ
    by reflexivity.
  exact (C3_missing_app_id Demo.parse_int Demo.host {[ "XY" := "48" ]}
           [Demo.front; Demo.back] 0%nat Happ).
Defined.

(** [XY=0] and [XY=-5] parse, are not positive, and the script does not
    fail: it renders, at the least resolution of the host. *)
Lemma C4_counterexample :
  let run_with (xy : string) :=
    run Demo.parse_int Demo.host
      {[ "XY" := xy; "APP_ID" := "org.example.App" ]} [Demo.front] 0%nat in
  (Demo.parse_int "0" = Some 0 /\ ~ 0 < 0 /\
   (run_with "0").1 = Ok tt /\
   length (renders (run_with "0").2) = 1%nat /\
   resolution_x <$> (render <$> scenes (run_with "0").2 !! 0%nat) = Some 4) /\
  (Demo.parse_int "-5" = Some (-5) /\ ~ 0 < -5 /\
   (run_with "-5").1 = Ok tt /\
   length (renders (run_with "-5").2) = 1%nat /\
   resolution_x <$> (render <$> scenes (run_with "-5").2 !! 0%nat) = Some 4).
Proof.
  cbn zeta. repeat split; try lia; by vm_compute.
Qed.

(** [XY=-5], [APP_ID] missing, one scene: accepted, and 4 is stored. *)
Lemma C4_integer_check_only_witness :
  let env : environ := {[ "XY" := "-5" ]} in
  let out := run Demo.parse_int Demo.host env [Demo.front] 0%nat in
  out.1 <> Raise ValueError /\
  exists s, scenes out.2 !! 0%nat = Some s /\
            resolution_x (render s) = 4 /\
            resolution_y (render s) = 4 /\
            (-5 <= 0 -> resolution_x (render s) = 4 /\
                        resolution_y (render s) = 4).
Proof.
  assert (({[ "XY" := "-5" ]} : environ) !! "XY" = Some "-5") as Hxy
    by reflexivity.
  assert ([Demo.front] <> []) as Hscs by discriminate.
  exact (C4_integer_check_only Demo.parse_int Demo.host {[ "XY" := "-5" ]}
           "-5" [Demo.front] 0%nat Hxy Hscs).
Defined.





(** A scene whose first frame is 10: after the run it is 1. *)
Lemma C8_counterexample :
  let out := run Demo.parse_int Demo.host Demo.env_48 [Demo.intro] 0%nat in
  frame_start Demo.intro = 10 /\
  out.1 = Ok tt /\
  frame_start <$> scenes out.2 !! 0%nat = Some 1.
Proof. by vm_compute. Qed.

(** No scene, [XY] not even a number, no [APP_ID]. *)
Lemma C9_no_scene_witness :
  run Demo.parse_int Demo.host {[ "XY" := "abc" ]} [] 7%nat
  = (Ok tt, {| scenes := []; disk := 7%nat; renders := [] |}).
Proof.
  apply (C9_no_scene Demo.parse_int Demo.host {[ "XY" := "abc" ]} "abc"
           7%nat).
  reflexivity.
Defined.

(** [XY=100000], [APP_ID] missing: the first scene is left at 65536, not
    at 100000. *)
Lemma C10_counterexample :
  let env : environ := {[ "XY" := "100000" ]} in
  let out := run Demo.parse_int Demo.host env [Demo.front] 0%nat in
  (env !! "APP_ID" = None /\ env !! "XY" = Some "100000" /\
   Demo.parse_int "100000" = Some 100000) /\
  out.1 = Raise (KeyError "APP_ID") /\
  exists s, scenes out.2 !! 0%nat = Some s /\
            resolution_x (render s) = 65536 /\
            resolution_x (render s) <> 100000.
Proof.
  split; [by vm_compute|]. split; [by vm_compute|].
  exists (sized 100000 Demo.front). repeat split; by vm_compute.
Qed.

Lemma C10_failure_not_atomic_witness :
  exists s',
    run Demo.parse_int Demo.host {[ "XY" := "48" ]}
      [Demo.front; Demo.back] 0%nat
    = (Raise (KeyError "APP_ID"),
       {| scenes := [s'; Demo.back]; disk := 0%nat; renders := [] |}) /\
    resolution_x (render s') = clamp resolution_min resolution_max 48 /\
    resolution_y (render s') = clamp resolution_min resolution_max 48 /\
    (resolution_min <= 48 <= resolution_max ->
     resolution_x (render s') = 48 /\ resolution_y (render s') = 48) /\
    filepath (render s') = "/tmp/" /\
    frame_end s' = 250.
Proof.
  apply (C10_failure_not_atomic Demo.parse_int Demo.host {[ "XY" := "48" ]}
           "48" 48 Demo.front [Demo.back] 0%nat);
    reflexivity.
Defined.

(** ** Further properties of the script *)

Section Further.

Context {RenderRest SceneRest Disk : Type}.
Variable parse_int : string -> option Z.
Variable render_op : list (Scene RenderRest SceneRest) -> Disk -> option Disk.

Implicit Types (env : environ) (xy app : string) (n : Z) (i j k : nat).
Implicit Types (s : Scene RenderRest SceneRest).
Implicit Types (scs : list (Scene RenderRest SceneRest)).
Implicit Types (d : Disk).

(** *** Helpers *)

Lemma string_length_append (a b : string) :
  String.length (a ++ b) = (String.length a + String.length b)%nat.
Proof. induction a as [|c a IH]; simpl; [done|by f_equal]. Qed.

Lemma string_append_inj (a a' b b' : string) :
  String.length a = String.length a' ->
  a ++ b = a' ++ b' ->
  a = a' /\ b = b'.
Proof.
  revert a'. induction a as [|c a IH]; intros [|c' a'] Hlen Heq;
    cbn in *; try done.
  injection Heq as -> Heq. destruct (IH a') as [-> ->]; [lia|done|done].
Qed.

(** A run that ends without an exception: either there was no scene, or
    both variables were usable and every scene has been configured and
    rendered. *)
Lemma run_ok_inv env scs d :
  (run parse_int render_op env scs d).1 = Ok tt ->
  scs = [] /\ scenes (run parse_int render_op env scs d).2 = [] \/
  exists xy n app,
    env !! "XY" = Some xy /\ parse_int xy = Some n /\
    in_int_range n = true /\ env !! "APP_ID" = Some app /\
    scenes (run parse_int render_op env scs d).2
    = configured n (icon_path xy app) <$> scs /\
    length (renders (run parse_int render_op env scs d).2) = length scs.
Proof.
  destruct (env !! "XY") as [xy|] eqn:Hxy; [|by rewrite run_no_xy].
  destruct scs as [|s scs]; [left; by erewrite run_no_scene|].
  destruct (parse_int xy) as [n|] eqn:Hint; [|by erewrite run_bad_int].
  destruct (in_int_range n) eqn:Hn; [|by erewrite run_bad_store].
  destruct (env !! "APP_ID") as [app|] eqn:Happ; [|by erewrite run_no_app].
  destruct (run_valid parse_int render_op env xy n app (s :: scs) d
              Hxy Hint Hn Happ)
    as (j & d' & r & Hj & -> & Hr). cbn [fst snd scenes renders].
  intros ->. destruct Hr as [(_ & -> & _)|(? & _)]; [|done].
  right. exists xy, n, app. rewrite progress_all by done.
  by rewrite length_fmap, length_seq.
Qed.

Lemma configured_same_rest n (path : string) s s' :
  same_rest s s' -> configured n path s = configured n path s'.
Proof.
  intros (Hs & Hr & Hf). unfold configured, sized, put_frame_end,
    put_filepath, put_resolution_y, put_resolution_x.
  cbn [render frame_start frame_end scene_rest resolution_x resolution_y
       filepath render_rest].
  by rewrite Hs, Hr, Hf.
Qed.

Lemma fmap_configured_same_rest n (path : string) scs scs' :
  Forall2 same_rest scs scs' ->
  configured n path <$> scs = configured n path <$> scs'.
Proof.
  induction 1 as [|s s' scs scs' Hs _ IH]; [done|].
  cbn. by rewrite (configured_same_rest n path s s' Hs), IH.
Qed.

Lemma configured_twice n (path : string) s :
  configured n path (configured n path s) = configured n path s.
Proof.
  unfold configured, sized, put_frame_end, put_filepath, put_resolution_y,
    put_resolution_x.
  cbn [render frame_start frame_end scene_rest resolution_x resolution_y
       filepath render_rest].
  f_equal. lia.
Qed.

Lemma fmap_configured_twice n (path : string) scs :
  configured n path <$> (configured n path <$> scs)
  = configured n path <$> scs.
Proof.
  induction scs as [|s scs IH]; cbn [fmap list_fmap]; [done|].
  by rewrite configured_twice, IH.
Qed.

(** *** What a run without exception means *)

(** X1.  If the script ends without an exception on a collection with at
    least one scene, then [XY] was present and numeric with a value that
    fits a C [int], [APP_ID] was present, every scene is now what the
    four accepted stores make of it (both resolutions [int(XY)] brought
    into 4..65536, the first 1023 bytes of the announced path,
    [frame_end] 1 and [frame_start] at most 1, the rest as before), and
    there has been one render call per scene. *)
Theorem X1_success_means_configured env scs d :
  scs <> [] ->
  (run parse_int render_op env scs d).1 = Ok tt ->
  exists xy n app,
    env !! "XY" = Some xy /\ parse_int xy = Some n /\
    in_int_range n = true /\ env !! "APP_ID" = Some app /\
    scenes (run parse_int render_op env scs d).2
    = configured n (icon_path xy app) <$> scs /\
    length (renders (run parse_int render_op env scs d).2) = length scs.
Proof.
  intros Hne Hok. by destruct (run_ok_inv env scs d Hok) as [[? _]|?].
Qed.

(** X2.  The exceptions that can leave the script, each with its cause.
    [KeyError] names [XY], which is then missing, or [APP_ID], which is
    then missing while [XY] is a number that fits a C [int] and there is
    a scene.  [ValueError] means there is a scene and [XY] is present but
    is not a number or is a number that does not fit a C [int].  A render
    failure comes from the last render call recorded.  The [%] operator
    never fails: its template has three directives for its three
    arguments.  A run without exception had [XY] present. *)
Theorem X2_exception_causes env scs d :
  let out := run parse_int render_op env scs d in
  match out.1 with
  | Ok _ => is_Some (env !! "XY")
  | Raise (KeyError key) =>
      key = "XY" /\ env !! "XY" = None \/
      key = "APP_ID" /\ env !! "APP_ID" = None /\ scs <> [] /\
      exists xy n, env !! "XY" = Some xy /\ parse_int xy = Some n /\
                   in_int_range n = true
  | Raise ValueError =>
      scs <> [] /\
      exists xy, env !! "XY" = Some xy /\
                 (parse_int xy = None \/
                  exists n, parse_int xy = Some n /\
                            in_int_range n = false)
  | Raise TypeError => False
  | Raise RuntimeError =>
      exists c, last (renders out.2) = Some c /\
                render_op (call_scenes c) (disk out.2) = None
  end.
Proof.
  intros out; subst out.
  destruct (env !! "XY") as [xy|] eqn:Hxy;
    [|rewrite run_no_xy by done; by left].
  destruct scs as [|s scs]; [erewrite run_no_scene by done; cbn; eauto|].
  destruct (parse_int xy) as [n|] eqn:Hint;
    [|erewrite run_bad_int by done; cbn; split; [done|eauto]].
  destruct (in_int_range n) eqn:Hn;
    [|erewrite run_bad_store by done; cbn; split; [done|eauto 10]].
  destruct (env !! "APP_ID") as [app|] eqn:Happ.
  - destruct (run_valid parse_int render_op env xy n app (s :: scs) d
                Hxy Hint Hn Happ)
      as (j & d' & r & Hj & -> & Hr). cbn [fst snd renders disk].
    destruct Hr as [(-> & _)|(-> & Hpos & Hfail)]; [eauto|].
    exists (call_at (configured n (icon_path xy app)) (s :: scs) (pred j)).
    split.
    + rewrite last_lookup, length_fmap, length_seq, list_lookup_fmap.
      by rewrite lookup_seq_lt by lia.
    + cbn [call_at call_scenes]. by replace (S (pred j)) with j by lia.
  - erewrite run_no_app by done. right. eauto 10.
Qed.

(** X3.  With [XY] numeric and [APP_ID] present, a render failure stops
    the script at once: for some scene k the scenes up to k are
    configured, the scenes after k are as they were, k + 1 render calls
    have been attempted, and the failing call is the one made on that
    state. *)
Theorem X3_render_failure_stops_loop env xy n app scs d :
  env !! "XY" = Some xy ->
  parse_int xy = Some n ->
  env !! "APP_ID" = Some app ->
  (run parse_int render_op env scs d).1 = Raise RuntimeError ->
  let f := configured n (icon_path xy app) in
  let out := run parse_int render_op env scs d in
  exists k,
    (k < length scs)%nat /\
    length (renders out.2) = S k /\
    scenes out.2 = ((f <$> take (S k) scs) ++ drop (S k) scs)%list /\
    render_op (scenes out.2) (disk out.2) = None.
Proof.
  intros Hxy Hint Happ Hfail f out; subst out. revert Hfail.
  destruct (in_int_range n) eqn:Hn; cycle 1.
  { destruct scs as [|s0 scs0].
    - by erewrite run_no_scene.
    - by erewrite run_bad_store. }
  destruct (run_valid parse_int render_op env xy n app scs d
              Hxy Hint Hn Happ)
    as (j & d' & r & Hj & -> & Hr). cbn [fst snd scenes renders disk].
  intros ->. destruct Hr as [(? & _)|(_ & Hpos & Hop)]; [done|].
  exists (pred j). replace (S (pred j)) with j by lia.
  rewrite length_fmap, length_seq. split; [lia|]. by repeat split.
Qed.

(** X4.  The script reads two variables and no other: two environments
    that agree on [XY] and on [APP_ID] give the same outcome, the same
    scenes, the same render calls and the same disk. *)
Theorem X4_reads_two_variables env env' scs d :
  env !! "XY" = env' !! "XY" ->
  env !! "APP_ID" = env' !! "APP_ID" ->
  run parse_int render_op env scs d = run parse_int render_op env' scs d.
Proof.
  intros Hxy Happ. unfold_script. rewrite Hxy.
  destruct (env' !! "XY") as [xy|]; [|done].
  unfold loop_body, eval, environ_get. by rewrite Happ.
Qed.

(** X5.  Running the script again changes no scene: if a run ends
    without an exception and a second run with the same environment, on
    the scenes the first one left and on any disk, ends without an
    exception too, the second run leaves the scenes as it found them. *)
Theorem X5_second_run_changes_nothing env scs d d2 :
  (run parse_int render_op env scs d).1 = Ok tt ->
  (run parse_int render_op env
     (scenes (run parse_int render_op env scs d).2) d2).1 = Ok tt ->
  scenes (run parse_int render_op env
            (scenes (run parse_int render_op env scs d).2) d2).2
  = scenes (run parse_int render_op env scs d).2.
Proof.
  intros Hok1 Hok2.
  destruct (run_ok_inv env _ d2 Hok2)
    as [[Hnil ->]|(xy2 & n2 & app2 & Hxy2 & Hint2 & _ & Happ2 & -> & _)];
    [done|].
  destruct (run_ok_inv env scs d Hok1)
    as [[_ ->]|(xy & n & app & Hxy & Hint & _ & Happ & -> & _)]; [done|].
  assert (xy2 = xy) as -> by congruence.
  assert (n2 = n) as -> by congruence.
  assert (app2 = app) as -> by congruence.
  apply fmap_configured_twice.
Qed.

(** X6.  What the four fields held before the run does not matter: two
    collections whose scenes agree, position by position, on every
    other field are left equal by runs that end without an exception in
    the same environment. *)
Theorem X6_previous_values_discarded env scs scs' d d' :
  Forall2 same_rest scs scs' ->
  (run parse_int render_op env scs d).1 = Ok tt ->
  (run parse_int render_op env scs' d').1 = Ok tt ->
  scenes (run parse_int render_op env scs d).2
  = scenes (run parse_int render_op env scs' d').2.
Proof.
  intros Hrest Hok Hok'.
  destruct (run_ok_inv env scs d Hok)
    as [[-> ->]|(xy & n & app & Hxy & Hint & _ & Happ & -> & _)].
  - apply Forall2_nil_inv_l in Hrest as ->.
    by destruct (run_ok_inv env [] d' Hok')
      as [[_ ->]|(? & ? & ? & _ & _ & _ & _ & -> & _)].
  - destruct (run_ok_inv env scs' d' Hok')
      as [[-> ->]|(xy' & n' & app' & Hxy' & Hint' & _ & Happ' & -> & _)].
    + by apply Forall2_nil_inv_r in Hrest as ->.
    + assert (xy' = xy) as -> by congruence.
      assert (n' = n) as -> by congruence.
      assert (app' = app) as -> by congruence.
      by apply fmap_configured_same_rest.
Qed.

(** X7.  However the run ends, there are never more render calls than
    scenes, and a scene whose position is past the number of render
    calls attempted is exactly as it was. *)
Theorem X7_unreached_scenes_untouched env scs d :
  let out := run parse_int render_op env scs d in
  (length (renders out.2) <= length scs)%nat /\
  forall i, (length (renders out.2) < i)%nat ->
            scenes out.2 !! i = scs !! i.
Proof.
  intros out; subst out.
  destruct (env !! "XY") as [xy|] eqn:Hxy;
    [|rewrite run_no_xy by done; cbn; split; [lia|done]].
  destruct scs as [|s scs];
    [erewrite run_no_scene by done; cbn; split; [lia|done]|].
  destruct (parse_int xy) as [n|] eqn:Hint;
    [|erewrite run_bad_int by done; cbn; split; [lia|done]].
  destruct (in_int_range n) eqn:Hn;
    [|erewrite run_bad_store by done; cbn; split; [lia|done]].
  destruct (env !! "APP_ID") as [app|] eqn:Happ.
  - destruct (run_valid parse_int render_op env xy n app (s :: scs) d
                Hxy Hint Hn Happ)
      as (j & d' & r & Hj & -> & Hr). cbn [fst snd scenes renders].
    rewrite length_fmap, length_seq. split; [done|].
    intros i Hi. apply progress_lookup_ge. lia.
  - erewrite run_no_app by done. cbn. split; [lia|].
    intros [|i] Hi; [lia|done].
Qed.


End Further.

(** *** Closed instances of the further properties *)

Lemma X1_success_means_configured_witness :
  exists xy n app,
    Demo.env_48 !! "XY" = Some xy /\ Demo.parse_int xy = Some n /\
    in_int_range n = true /\
    Demo.env_48 !! "APP_ID" = Some app /\
    scenes (run Demo.parse_int Demo.host Demo.env_48
              [Demo.front; Demo.back] 0%nat).2
    = configured n (icon_path xy app) <$> [Demo.front; Demo.back] /\
    length (renders (run Demo.parse_int Demo.host Demo.env_48
                       [Demo.front; Demo.back] 0%nat).2) = 2%nat.
Proof.
  assert ([Demo.front; Demo.back] <> []) as Hne by discriminate.
  assert ((run Demo.parse_int Demo.host Demo.env_48
             [Demo.front; Demo.back] 0%nat).1
          = Ok tt) as Hok by (vm_compute; reflexivity).
  exact (X1_success_means_configured Demo.parse_int Demo.host Demo.env_48
           [Demo.front; Demo.back] 0%nat Hne Hok).
Defined.

(** The second render fails: two calls, two scenes configured. *)
Lemma X3_render_failure_stops_loop_witness :
  let scs := [Demo.front; Demo.back; Demo.front_other] in
  let f := configured 48 (icon_path "48" "org.example.App") in
  let out := run Demo.parse_int Demo.flaky_host Demo.env_48 scs 0%nat in
  exists k,
    (k < 3)%nat /\
    length (renders out.2) = S k /\
    scenes out.2 = ((f <$> take (S k) scs) ++ drop (S k) scs)%list /\
    Demo.flaky_host (scenes out.2) (disk out.2) = None.
Proof.
  assert (Demo.env_48 !! "XY" = Some "48") as Hxy by reflexivity.
  assert (Demo.parse_int "48" = Some 48) as Hint by reflexivity.
  assert (Demo.env_48 !! "APP_ID" = Some "org.example.App") as Happ
    by reflexivity.
  assert ((run Demo.parse_int Demo.flaky_host Demo.env_48
             [Demo.front; Demo.back; Demo.front_other] 0%nat).1
          = Raise RuntimeError) as Hfail by (vm_compute; reflexivity).
  exact (X3_render_failure_stops_loop Demo.parse_int Demo.flaky_host
           Demo.env_48 "48" 48 "org.example.App"
           [Demo.front; Demo.back; Demo.front_other] 0%nat
           Hxy Hint Happ Hfail).
Defined.

Lemma X4_reads_two_variables_witness :
  run Demo.parse_int Demo.host Demo.env_48_more [Demo.front; Demo.back] 0%nat
  = run Demo.parse_int Demo.host Demo.env_48 [Demo.front; Demo.back] 0%nat.
Proof.
  apply (X4_reads_two_variables Demo.parse_int Demo.host Demo.env_48_more
           Demo.env_48 [Demo.front; Demo.back] 0%nat);
    vm_compute; reflexivity.
Defined.

Lemma X5_second_run_changes_nothing_witness :
  let first :=
    run Demo.parse_int Demo.host Demo.env_48 [Demo.front; Demo.intro] 0%nat in
  scenes (run Demo.parse_int Demo.host Demo.env_48 (scenes first.2) 5%nat).2
  = scenes first.2.
Proof.
  apply (X5_second_run_changes_nothing Demo.parse_int Demo.host Demo.env_48
           [Demo.front; Demo.intro] 0%nat 5%nat);
    vm_compute; reflexivity.
Defined.

Lemma X6_previous_values_discarded_witness :
  scenes (run Demo.parse_int Demo.host Demo.env_48
            [Demo.front; Demo.back] 0%nat).2
  = scenes (run Demo.parse_int Demo.host Demo.env_48
              [Demo.front_other; Demo.back_other] 3%nat).2.
Proof.
  apply (X6_previous_values_discarded Demo.parse_int Demo.host Demo.env_48
           [Demo.front; Demo.back] [Demo.front_other; Demo.back_other]
           0%nat 3%nat).
  - repeat constructor.
  - vm_compute; reflexivity.
  - vm_compute; reflexivity.
Defined.

